(** * Scripted elements and dialog execution of the ZEISS INSPECT API wheel

    A shallow embedding of [gom/extensions.py] (the scripted element base
    classes and their default multi-stage computation) and of
    [gom/api/dialog/__init__.py] (the dialog entry point), together with
    the properties the specification states about them. *)

From stdpp Require Import gmap strings list fin_maps.

(** * Part I: the embedding *)

(** ** Python calls: a call either returns a value or raises *)

Inductive outcome (E A : Type) : Type :=
| Returned (a : A)
| Raised (e : E).
Arguments Returned {E A} a.
Arguments Raised {E A} e.

Definition is_returned {E A} (o : outcome E A) : bool :=
  match o with Returned _ => true | Raised _ => false end.

(** ** The script context and the list objects

    The layer reads [context.stages] and assigns [context.stage]; whatever
    else the host keeps in the context object is carried along in
    [host_data].  [stage] is [None] as long as the attribute has not been
    assigned.

    [context.stages] is a Python list: an object that the author's code
    can change in place while the loop of [compute_stages] walks it, and
    the attribute can be bound to another list.  So the context holds a
    reference to its list of stages, and the lists live in a store beside
    it. *)

Record ExecutionContext (Host : Type) : Type := {
  stage : option Z;
  stages : nat;
  host_data : Host
}.
Arguments stage {Host} _.
Arguments stages {Host} _.
Arguments host_data {Host} _.

(** What a call finds and leaves: the context object and the list
    objects. *)
Record State (Host : Type) : Type := {
  context_object : ExecutionContext Host;
  list_objects : gmap nat (list Z)
}.
Arguments context_object {Host} _.
Arguments list_objects {Host} _.

(** The list object under a reference, as it is in a state. *)
Definition list_at {Host} (state : State Host) (r : nat) : list Z :=
  list_objects state !!! r.

(** [context.stages], as it is in a state. *)
Definition stage_list {Host} (state : State Host) : list Z :=
  list_at state (stages (context_object state)).

(** [context.stage = s] *)
Definition set_stage {Host} (state : State Host) (s : Z) : State Host :=
  {| context_object :=
       {| stage := Some s;
          stages := stages (context_object state);
          host_data := host_data (context_object state) |};
     list_objects := list_objects state |}.

(** ** [inspect.Parameter.kind] *)

Inductive ParameterKind : Type :=
| POSITIONAL_ONLY
| POSITIONAL_OR_KEYWORD
| VAR_POSITIONAL
| KEYWORD_ONLY
| VAR_KEYWORD.

Definition kind_eqb (a b : ParameterKind) : bool :=
  match a, b with
  | POSITIONAL_ONLY, POSITIONAL_ONLY
  | POSITIONAL_OR_KEYWORD, POSITIONAL_OR_KEYWORD
  | VAR_POSITIONAL, VAR_POSITIONAL
  | KEYWORD_ONLY, KEYWORD_ONLY
  | VAR_KEYWORD, VAR_KEYWORD => true
  | _, _ => false
  end.

#[global] Instance ParameterKind_eq_dec : EqDecision ParameterKind.
Proof. solve_decision. Defined.

(** [inspect.signature(f).parameters]: an ordered mapping from the declared
    parameter names to their kinds. *)
Abbreviation Signature := (list (string * ParameterKind)).

(** [k in params] *)
Definition in_params (params : Signature) (k : string) : bool :=
  bool_decide (k ∈ params.*1).

Module Extensions.

Section ScriptedElement.

(** Python values, exceptions, and the host's part of the context. *)
Context {Value Exn Host : Type}.

(** Keyword arguments are a [dict] with string keys; they are matched by
    name, and their order plays no part. *)
Abbreviation Kwargs := (gmap string Value).
Abbreviation ScriptState := (State Host).

(** What a script author supplies by subclassing: the two abstract
    methods, and the declared parameters of [compute] as
    [inspect.signature(self.compute)] reports them.  A method gets the
    context object, may assign to it and may change the lists it can
    reach, so it hands the state back together with its outcome. *)
Class ScriptedElementMethods : Type := {
  dialog : ScriptState → Kwargs → ScriptState * outcome Exn Value;
  compute_parameters : Signature;
  compute : ScriptState → Kwargs → ScriptState * outcome Exn Value
}.

Context `{Methods : ScriptedElementMethods}.

(** One invocation of [self.compute (context, **kwargs)], recorded with
    the state as it was when the call was made. *)
Record Call : Type := {
  call_state : ScriptState;
  call_kwargs : Kwargs
}.

Definition call_result (c : Call) : outcome Exn Value :=
  (compute (call_state c) (call_kwargs c)).2.

Definition call_leaves (c : Call) : ScriptState :=
  (compute (call_state c) (call_kwargs c)).1.

(** What an invocation of [compute_stages] amounts to: the state it
    leaves behind, the [compute] calls it made, in order, and what it
    returned or raised; [result] is [None] for a loop that was still
    running when it was cut off. *)
Record Run : Type := {
  final_state : ScriptState;
  calls : list Call;
  result : option (outcome Exn (list Value))
}.

(** [{k: v for k, v in kwargs.items() if k in params}] *)
Definition filter_kwargs (params : Signature) (kwargs : Kwargs) : Kwargs :=
  filter (λ kv, in_params params kv.1 = true) kwargs.

(** The loop
<<
      for stage in context.stages:
          context.stage = stage
          result.append(self.compute(context, **kwargs))
      return result
>>
    as Python runs it: the list iterator keeps the list object it was
    made for, [iterated], and the [index] of the next item, and each
    round looks the item up in the list as it then is; the loop ends
    when the index is off the end of the list.  A list that [compute]
    makes longer in place gets its new items visited too, and a loop
    over a list that grows with every call never ends, so the rounds are
    counted down from [fuel].  Binding [context.stages] to another list
    does not touch the iterator.  An exception of [compute] leaves the
    loop and the function, with the state as the call left it. *)
Fixpoint for_stage_in (fuel : nat) (iterated index : nat) (state : ScriptState)
    (kwargs : Kwargs) (result : list Value) (made : list Call) : Run :=
  match fuel with
  | O => {| final_state := state; calls := made; result := None |}
  | S fuel =>
      match list_at state iterated !! index with
      | None =>
          {| final_state := state; calls := made;
             result := Some (Returned result) |}
      | Some stage =>
          let state := set_stage state stage in
          let made := made ++ [{| call_state := state; call_kwargs := kwargs |}] in
          match compute state kwargs with
          | (state, Returned v) =>
              for_stage_in fuel iterated (S index) state kwargs
                (result ++ [v]) made
          | (state, Raised e) =>
              {| final_state := state; calls := made;
                 result := Some (Raised e) |}
          end
      end
  end.

(** [ScriptedElement.compute_stages], run for at most [fuel] rounds of
    its loop. *)
Definition compute_stages (fuel : nat) (state : ScriptState) (kwargs : Kwargs)
  : Run :=
  let result := [] in
  let params := compute_parameters in
  let has_args := existsb (λ p, kind_eqb p.2 VAR_POSITIONAL) params in
  let has_kwargs := existsb (λ p, kind_eqb p.2 VAR_KEYWORD) params in
  let kwargs :=
    if negb (has_args || has_kwargs) then filter_kwargs params kwargs
    else kwargs in
  for_stage_in fuel (stages (context_object state)) 0 state kwargs result [].

(** *** The filtering rule, in the words of the specification *)

(** [compute] declares a catch-all positional ([*args]) or a catch-all
    keyword ([**kwargs]) parameter. *)
Definition declares_catch_all (params : Signature) : Prop :=
  Exists (λ p, p.2 = VAR_POSITIONAL ∨ p.2 = VAR_KEYWORD) params.

(** The keyword arguments each [compute] call is to receive: all of them
    when there is a catch-all of either kind, otherwise the entries whose
    key is a declared parameter name. *)
Definition spec_filtered_kwargs (params : Signature) (kwargs : Kwargs) : Kwargs :=
  if decide (declares_catch_all params) then kwargs
  else filter (λ kv, kv.1 ∈ params.*1) kwargs.

(** The call made for stage [s] out of [state]. *)
Definition first_call (state : ScriptState) (s : Z) (kwargs : Kwargs) : Call :=
  {| call_state := set_stage state s; call_kwargs := kwargs |}.

(** What the calls of a list returned, for those that returned. *)
Definition returned_values (cs : list Call) : list Value :=
  omap (λ c, match call_result c with
             | Returned v => Some v
             | Raised _ => None
             end) cs.

(** A call that leaves the list object under [r] as it found it, and a
    call that leaves everything as it found it. *)
Definition leaves_list_alone (r : nat) (c : Call) : Prop :=
  list_at (call_leaves c) r = list_at (call_state c) r.

Definition leaves_state_alone (c : Call) : Prop :=
  call_leaves c = call_state c.

End ScriptedElement.

(** ** Construction *)

Section Construction.

(** The objects under construction ([self]), and what constructing a
    contribution amounts to on the side of the host. *)
Context {Obj Registered : Type}.

(** [self.attr] for a method [attr]: the method bound to [self]. *)
Inductive Callable : Type :=
| BoundMethod (self : Obj) (attr : string).

(** The keyword arguments of [Contribution.__init__]. *)
Record ContributionArguments : Type := {
  name : string;
  category : string;
  callables : gmap string Callable;
  properties : gmap string string
}.

(** [gom.__common__.Contribution.__init__], the constructor of the base
    class, which hands the contribution over to the host. *)
Variable Contribution__init__ : Obj → ContributionArguments → Registered.

(** [ScriptedElement.__init__] *)
Definition ScriptedElement__init__ (self : Obj)
    (name element_type category : string) : Registered :=
  Contribution__init__ self
    {| name := name;
       category := category;
       callables :=
         <["compute_stages" := BoundMethod self "compute_stages"]>
           (<["dialog" := BoundMethod self "dialog"]> ∅);
       properties := <["element_type" := element_type]> ∅ |}.

(** [ScriptedActual.__init__] *)
Definition ScriptedActual__init__ (self : Obj) (name element_type : string)
  : Registered :=
  ScriptedElement__init__ self name element_type "scriptedelement.actual".

(** [ScriptedCheck.__init__] *)
Definition ScriptedCheck__init__ (self : Obj) (name element_type : string)
  : Registered :=
  ScriptedElement__init__ self name element_type "scriptedelement.check".

End Construction.

End Extensions.

(** * [gom.api.dialog] *)

Module Dialog.

Section Execute.

(** Script contexts, Python values, exceptions, and the state of the
    host application. *)
Context {ScriptContext Value Exn HostState : Type}.

(** [gom.__api__.__call_function__], the call boundary to the host: it
    gets the script context and the request, and the host does the rest. *)
Variable __call_function__ :
  ScriptContext → string → HostState → HostState * outcome Exn Value.

(** [gom.api.dialog.execute] *)
Definition execute (context : ScriptContext) (data : string)
  : HostState → HostState * outcome Exn Value :=
  __call_function__ context data.

End Execute.

End Dialog.

(** * Scripted elements at work

    [Offset] is a script author's element whose [compute] is declared as
    [compute (self, context, a, b)], adds the current stage to [a], and
    refuses stage 7; it leaves the context and the lists alone. *)

Module Demo.

Import Extensions.

Definition Offset : @ScriptedElementMethods Z string unit := {|
  dialog := λ state kwargs, (state, Returned 0%Z);
  compute_parameters :=
    [("context", POSITIONAL_OR_KEYWORD); ("a", POSITIONAL_OR_KEYWORD);
     ("b", POSITIONAL_OR_KEYWORD)];
  compute := λ state kwargs,
    (state,
     match stage (context_object state), kwargs !! "a" with
     | Some s, Some a =>
         if decide (s = 7%Z) then Raised "ValueError" else Returned (a + s)%Z
     | _, _ => Raised "TypeError"
     end)
|}.

(** The same, declared as [compute (self, context, a, **others)]. *)
Definition OffsetOthers : @ScriptedElementMethods Z string unit := {|
  dialog := @dialog _ _ _ Offset;
  compute_parameters :=
    [("context", POSITIONAL_OR_KEYWORD); ("a", POSITIONAL_OR_KEYWORD);
     ("others", VAR_KEYWORD)];
  compute := @compute _ _ _ Offset
|}.

Definition widgets : gmap string Z :=
  <["c" := 3%Z]> (<["b" := 2%Z]> (<["a" := 1%Z]> ∅)).

(** The widget values [compute] declares parameters for. *)
Definition declared_widgets : gmap string Z :=
  <["b" := 2%Z]> (<["a" := 1%Z]> ∅).

(** A context fresh from the host, with [l] for its list of stages. *)
Definition project (l : list Z) : State unit :=
  {| context_object := {| stage := None; stages := 0%nat; host_data := tt |};
     list_objects := <[0%nat := l]> ∅ |}.

(** In-place changes of the list [context.stages] is bound to. *)
Definition change_stages (f : list Z → list Z) (state : State unit) : State unit :=
  {| context_object := context_object state;
     list_objects :=
       <[stages (context_object state) := f (stage_list state)]>
         (list_objects state) |}.

(** [context.stages = l], with a list of its own for [l]. *)
Definition bind_stages (l : list Z) (state : State unit) : State unit :=
  let r := fresh (dom (list_objects state)) in
  {| context_object :=
       {| stage := stage (context_object state);
          stages := r;
          host_data := host_data (context_object state) |};
     list_objects := <[r := l]> (list_objects state) |}.

(** An element that puts a stage of its own on the list:
<<
      def compute(self, context):
          if context.stage == 0:
              context.stages.append(1)
          return context.stage
>> *)
Definition Appender : @ScriptedElementMethods Z string unit := {|
  dialog := λ state kwargs, (state, Returned 0%Z);
  compute_parameters := [("context", POSITIONAL_OR_KEYWORD)];
  compute := λ state kwargs,
    match stage (context_object state) with
    | Some s =>
        (if decide (s = 0%Z) then change_stages (λ l, l ++ [1%Z]) state
         else state,
         Returned s)
    | None => (state, Raised "AttributeError")
    end
|}.

(** An element that changes the list and then gives the context another:
<<
      def compute(self, context):
          if context.stage == 5:
              context.stages[1] = 7
              context.stages = [9, 9]
          return context.stage
>> *)
Definition Rebinder : @ScriptedElementMethods Z string unit := {|
  dialog := λ state kwargs, (state, Returned 0%Z);
  compute_parameters := [("context", POSITIONAL_OR_KEYWORD)];
  compute := λ state kwargs,
    match stage (context_object state) with
    | Some s =>
        if decide (s = 5%Z) then
          if decide (1 < length (stage_list state))%nat then
            (bind_stages [9; 9]%Z (change_stages (λ l, <[1%nat := 7%Z]> l) state),
             Returned s)
          else (state, Raised "IndexError")
        else (state, Returned s)
    | None => (state, Raised "AttributeError")
    end
|}.

(** An element that empties the list:
<<
      def compute(self, context):
          context.stages.clear()
          return context.stage
>> *)
Definition Clearer : @ScriptedElementMethods Z string unit := {|
  dialog := λ state kwargs, (state, Returned 0%Z);
  compute_parameters := [("context", POSITIONAL_OR_KEYWORD)];
  compute := λ state kwargs,
    match stage (context_object state) with
    | Some s => (change_stages (λ _, []) state, Returned s)
    | None => (state, Raised "AttributeError")
    end
|}.

End Demo.

(** * Part II: properties *)

Module ExtensionsFacts.

Import Extensions.

Section ScriptedElement.

Context {Value Exn Host : Type} {Methods : @ScriptedElementMethods Value Exn Host}.

Abbreviation Kwargs := (gmap string Value).
Abbreviation ScriptState := (State Host).
Abbreviation Call := (@Extensions.Call Value Host).

(** *** The filtering test *)

Lemma kind_eqb_eq (a b : ParameterKind) : kind_eqb a b = true ↔ a = b.
Proof. destruct a, b; simpl; split; (done || congruence). Qed.

Lemma existsb_kind (params : Signature) (kd : ParameterKind) :
  existsb (λ p, kind_eqb p.2 kd) params = true ↔ ∃ p, p ∈ params ∧ p.2 = kd.
Proof.
  rewrite existsb_exists. split.
  - intros (p & Hin & Hk). exists p. split.
    + by apply list_elem_of_In.
    + by apply kind_eqb_eq.
  - intros (p & Hin & Hk). exists p. split.
    + by apply list_elem_of_In.
    + by apply kind_eqb_eq.
Qed.

Lemma catch_all_test (params : Signature) :
  (existsb (λ p, kind_eqb p.2 VAR_POSITIONAL) params
   || existsb (λ p, kind_eqb p.2 VAR_KEYWORD) params) = true
  ↔ declares_catch_all params.
Proof.
  rewrite orb_true_iff, !existsb_kind. unfold declares_catch_all.
  rewrite Exists_exists. split.
  - intros [(p & Hin & Hk)|(p & Hin & Hk)]; exists p; auto.
  - intros (p & Hin & [Hk|Hk]); [left|right]; exists p; auto.
Qed.

Lemma filter_kwargs_declared (params : Signature) (kwargs : Kwargs) :
  filter_kwargs params kwargs = filter (λ kv, kv.1 ∈ params.*1) kwargs.
Proof.
  unfold filter_kwargs, in_params. apply map_filter_ext.
  intros k v _. simpl. apply bool_decide_eq_true.
Qed.

(** *** The loop, one round at a time *)

Lemma list_at_set_stage (st : ScriptState) (s : Z) (r : nat) :
  list_at (set_stage st s) r = list_at st r.
Proof. done. Qed.

(** The accumulators only collect: a loop started with some results and
    calls already gathered adds to them what the loop started afresh
    yields. *)
Lemma for_stage_in_acc (fuel : nat) :
  ∀ (it i : nat) (st : ScriptState) (kwargs : Kwargs) (res : list Value)
    (made : list Call),
    for_stage_in fuel it i st kwargs res made =
    let r := for_stage_in fuel it i st kwargs [] [] in
    {| final_state := final_state r;
       calls := made ++ calls r;
       result := match result r with
                 | Some (Returned vs) => Some (Returned (res ++ vs))
                 | Some (Raised e) => Some (Raised e)
                 | None => None
                 end |}.
Proof.
  induction fuel as [|fuel IH]; intros it i st kwargs res made; simpl.
  - by rewrite app_nil_r.
  - destruct (list_at st it !! i) as [s|]; simpl; [|by rewrite !app_nil_r].
    destruct (compute (set_stage st s) kwargs) as [st' [v|e]]; simpl; [|done].
    rewrite (IH it (S i) st' kwargs (res ++ [v])).
    rewrite (IH it (S i) st' kwargs [v]). simpl.
    destruct (result (for_stage_in fuel it (S i) st' kwargs [] []))
      as [[vs|e]|]; simpl; by rewrite <- ?app_assoc.
Qed.

(** One round: the loop ends if the index is off the list as it now is,
    and otherwise makes the call for the item at the index and goes on
    from the next index in the state the call left. *)
Lemma for_stage_in_step (fuel it i : nat) (st : ScriptState) (kwargs : Kwargs) :
  for_stage_in (S fuel) it i st kwargs [] [] =
  match list_at st it !! i with
  | None => {| final_state := st; calls := []; result := Some (Returned []) |}
  | Some s =>
      match call_result (first_call st s kwargs) with
      | Returned v =>
          let r := for_stage_in fuel it (S i)
                     (call_leaves (first_call st s kwargs)) kwargs [] [] in
          {| final_state := final_state r;
             calls := first_call st s kwargs :: calls r;
             result := match result r with
                       | Some (Returned vs) => Some (Returned (v :: vs))
                       | Some (Raised e) => Some (Raised e)
                       | None => None
                       end |}
      | Raised e =>
          {| final_state := call_leaves (first_call st s kwargs);
             calls := [first_call st s kwargs];
             result := Some (Raised e) |}
      end
  end.
Proof.
  simpl. destruct (list_at st it !! i) as [s|]; [|done].
  unfold call_result, call_leaves, first_call. simpl.
  destruct (compute (set_stage st s) kwargs) as [st' [v|e]]; simpl; [|done].
  by rewrite for_stage_in_acc.
Qed.

(** Take the loop one round further and split on whether there is an
    item at the index and on what the call for it did. *)
Ltac step_stage it i st kw s L R :=
  rewrite (for_stage_in_step _ it i st kw);
  destruct (list_at st it !! i) as [s|] eqn:L;
  [destruct (call_result (first_call st s kw)) eqn:R|]; simpl.

(** The [k]-th call made from index [i] on is made for the item at index
    [i + k] of the iterated list as it is when the call is made, with
    the keyword arguments the loop was entered with. *)
Lemma for_stage_in_call (fuel : nat) :
  ∀ (it i : nat) (st : ScriptState) (kwargs : Kwargs) (k : nat) (call : Call),
    calls (for_stage_in fuel it i st kwargs [] []) !! k = Some call →
    stage (context_object (call_state call))
      = list_at (call_state call) it !! (i + k)%nat
    ∧ is_Some (stage (context_object (call_state call)))
    ∧ call_kwargs call = kwargs.
Proof.
  induction fuel as [|fuel IH]; intros it i st kwargs k call; [done|].
  step_stage it i st kwargs s L R; [| |done].
  - destruct k as [|k]; simpl.
    + intros [= <-]. simpl. rewrite Nat.add_0_r, list_at_set_stage, L. eauto.
    + intros Hk. rewrite <- Nat.add_succ_comm. by apply (IH _ _ _ _ _ _ Hk).
  - destruct k as [|k]; simpl; [|done].
    intros [= <-]. simpl. rewrite Nat.add_0_r, list_at_set_stage, L. eauto.
Qed.

(** A loop that runs to its end holds in its vector what its calls
    returned, call by call, and has ended with its index off the end of
    the iterated list. *)
Lemma for_stage_in_returned (fuel : nat) :
  ∀ (it i : nat) (st : ScriptState) (kwargs : Kwargs) (vec : list Value),
    result (for_stage_in fuel it i st kwargs [] []) = Some (Returned vec) →
    Forall2 (λ call v, call_result call = Returned v)
      (calls (for_stage_in fuel it i st kwargs [] [])) vec
    ∧ list_at (final_state (for_stage_in fuel it i st kwargs [] [])) it
        !! (i + length (calls (for_stage_in fuel it i st kwargs [] [])))%nat
      = None.
Proof.
  induction fuel as [|fuel IH]; intros it i st kwargs vec; [done|].
  step_stage it i st kwargs s L R; [|done|].
  - destruct (result (for_stage_in fuel it (S i) _ kwargs [] []))
      as [[vs|e]|] eqn:Rs; [|done|done].
    intros [= <-]. destruct (IH _ _ _ _ _ Rs) as [Hall Hend].
    split; [by constructor|]. by rewrite <- Nat.add_succ_comm.
  - intros [= <-]. split; [constructor|]. by rewrite Nat.add_0_r.
Qed.

(** A call that raises is the last one made; its exception is the
    loop's, and the state stays as that call left it. *)
Lemma for_stage_in_raised (fuel : nat) :
  ∀ (it i : nat) (st : ScriptState) (kwargs : Kwargs) (k : nat) (call : Call)
    (e : Exn),
    calls (for_stage_in fuel it i st kwargs [] []) !! k = Some call →
    call_result call = Raised e →
    result (for_stage_in fuel it i st kwargs [] []) = Some (Raised e)
    ∧ length (calls (for_stage_in fuel it i st kwargs [] [])) = S k
    ∧ final_state (for_stage_in fuel it i st kwargs [] []) = call_leaves call.
Proof.
  induction fuel as [|fuel IH]; intros it i st kwargs k call e; [done|].
  step_stage it i st kwargs s L R; [| |done].
  - destruct k as [|k]; simpl.
    + intros [= <-]. congruence.
    + intros Hk He. destruct (IH _ _ _ _ _ _ _ Hk He) as (-> & -> & ->). done.
  - destruct k as [|k]; simpl; [|done].
    intros [= <-]. rewrite R. by intros [= ->].
Qed.

(** A loop that raised did so in its last call. *)
Lemma for_stage_in_raised_last (fuel : nat) :
  ∀ (it i : nat) (st : ScriptState) (kwargs : Kwargs) (e : Exn),
    result (for_stage_in fuel it i st kwargs [] []) = Some (Raised e) →
    ∃ call, last (calls (for_stage_in fuel it i st kwargs [] [])) = Some call
            ∧ call_result call = Raised e
            ∧ final_state (for_stage_in fuel it i st kwargs [] [])
              = call_leaves call.
Proof.
  induction fuel as [|fuel IH]; intros it i st kwargs e; [done|].
  step_stage it i st kwargs s L R; [| |done].
  - destruct (result (for_stage_in fuel it (S i) _ kwargs [] []))
      as [[vs|e']|] eqn:Rs; [done| |done].
    intros [= ->]. destruct (IH _ _ _ _ _ Rs) as (call & Hcall & He & Hf).
    exists call. by rewrite last_cons, Hcall.
  - intros [= ->]. eauto.
Qed.

(** Every call but the last one made has returned. *)
Lemma for_stage_in_earlier_returned (fuel : nat) :
  ∀ (it i : nat) (st : ScriptState) (kwargs : Kwargs) (j : nat) (call : Call),
    calls (for_stage_in fuel it i st kwargs [] []) !! j = Some call →
    (S j < length (calls (for_stage_in fuel it i st kwargs [] [])))%nat →
    is_returned (call_result call) = true.
Proof.
  induction fuel as [|fuel IH]; intros it i st kwargs j call; [done|].
  step_stage it i st kwargs s L R; [| |done].
  - destruct j as [|j]; simpl.
    + intros [= <-] _. by rewrite R.
    + intros Hj Hlen. apply (IH _ _ _ _ _ _ Hj). lia.
  - intros _ Hlen. lia.
Qed.

(** Whatever the loop came to, it leaves the state as its last call
    left it, or as it found it if it made no call. *)
Lemma for_stage_in_final (fuel : nat) :
  ∀ (it i : nat) (st : ScriptState) (kwargs : Kwargs),
    final_state (for_stage_in fuel it i st kwargs [] []) =
    match last (calls (for_stage_in fuel it i st kwargs [] [])) with
    | Some call => call_leaves call
    | None => st
    end.
Proof.
  induction fuel as [|fuel IH]; intros it i st kwargs; [done|].
  step_stage it i st kwargs s L R; [|done|done].
  rewrite IH, last_cons.
  by destruct (last (calls (for_stage_in fuel it (S i) _ kwargs [] []))).
Qed.

(** Between two calls the loop assigns the stage and does nothing else:
    the first call is entered with the state the loop was entered with,
    and every later one with the state its predecessor left, in both
    cases with the item at the index of the call made current. *)
Lemma for_stage_in_chain (fuel : nat) :
  ∀ (it i : nat) (st : ScriptState) (kwargs : Kwargs),
    (∀ call, calls (for_stage_in fuel it i st kwargs [] []) !! 0%nat = Some call →
       ∃ s, list_at st it !! i = Some s ∧ call = first_call st s kwargs)
    ∧ (∀ k before call,
         calls (for_stage_in fuel it i st kwargs [] []) !! k = Some before →
         calls (for_stage_in fuel it i st kwargs [] []) !! S k = Some call →
         ∃ s, list_at (call_leaves before) it !! (i + S k)%nat = Some s
              ∧ call = first_call (call_leaves before) s kwargs).
Proof.
  induction fuel as [|fuel IH]; intros it i st kwargs; [done|].
  step_stage it i st kwargs s L R; [| |done].
  - destruct (IH it (S i) (call_leaves (first_call st s kwargs)) kwargs)
      as [IH0 IHS].
    split.
    + intros call [= <-]. eauto.
    + intros [|k] before call; simpl.
      * intros [= <-] Hc. rewrite Nat.add_1_r. by apply IH0.
      * intros Hb Hc. rewrite <- Nat.add_succ_comm. by apply IHS.
  - split.
    + intros call [= <-]. eauto.
    + by intros [|k] before call.
Qed.

(** *** Calls that leave the iterated list alone *)

(** When the calls leave the iterated list as they found it, the loop
    visits the items that list had from the index on, once each: it
    makes no more calls than there are such items, every call finds the
    list as it was, the loop comes to an end within one round more than
    there are items, and a loop that returned has visited them all. *)
Lemma for_stage_in_unchanged (it : nat) (l : list Z) (kwargs : Kwargs)
    (fuel : nat) :
  ∀ (i : nat) (st : ScriptState),
    list_at st it = l →
    Forall (leaves_list_alone it) (calls (for_stage_in fuel it i st kwargs [] [])) →
    (length (calls (for_stage_in fuel it i st kwargs [] [])) ≤ length l - i)%nat
    ∧ ((length l - i < fuel)%nat →
       is_Some (result (for_stage_in fuel it i st kwargs [] [])))
    ∧ (∀ k call, calls (for_stage_in fuel it i st kwargs [] []) !! k = Some call →
         list_at (call_state call) it = l)
    ∧ (∀ vec, result (for_stage_in fuel it i st kwargs [] []) = Some (Returned vec) →
         (length l ≤ i + length (calls (for_stage_in fuel it i st kwargs [] [])))%nat)
    ∧ list_at (final_state (for_stage_in fuel it i st kwargs [] [])) it = l.
Proof.
  induction fuel as [|fuel IH]; intros i st Hl.
  - simpl. intros _. split_and!; try done; lia.
  - step_stage it i st kwargs s L R.
    + intros Hall. apply Forall_cons in Hall as [Hc Hall].
      unfold leaves_list_alone in Hc. simpl in Hc.
      rewrite list_at_set_stage, Hl in Hc.
      destruct (IH (S i) _ Hc Hall) as (Hlen & Hfuel & Hst & Hret & Hfin).
      rewrite Hl in L. apply lookup_lt_Some in L.
      split_and!.
      * lia.
      * intros Hf. destruct Hfuel as [o Ho]; [lia|].
        rewrite Ho. destruct o; simpl; eauto.
      * intros [|k] call; simpl; [|by apply Hst].
        intros [= <-]. simpl. by rewrite list_at_set_stage.
      * intros vec.
        destruct (result (for_stage_in fuel it (S i) _ kwargs [] []))
          as [[vs|e]|]; [|done|done].
        intros _. specialize (Hret vs eq_refl). lia.
      * done.
    + intros Hall. apply Forall_cons in Hall as [Hc _].
      unfold leaves_list_alone in Hc. simpl in Hc.
      rewrite list_at_set_stage, Hl in Hc.
      rewrite Hl in L. apply lookup_lt_Some in L.
      split_and!.
      * lia.
      * eauto.
      * intros [|k] call; simpl; [|done].
        intros [= <-]. simpl. by rewrite list_at_set_stage.
      * done.
      * done.
    + intros _. rewrite Hl in L. apply lookup_ge_None in L.
      split_and!; try done; try lia.
Qed.

(** When the calls leave the whole state as they found it, each call is
    entered with the state the loop was entered with, but for the stage. *)
Lemma for_stage_in_framed (it : nat) (st : ScriptState) (kwargs : Kwargs)
    (fuel : nat) :
  ∀ (i : nat) (c : ScriptState),
    (∀ s, set_stage c s = set_stage st s) →
    Forall leaves_state_alone (calls (for_stage_in fuel it i c kwargs [] [])) →
    ∀ call, call ∈ calls (for_stage_in fuel it i c kwargs [] []) →
      ∃ s, call_state call = set_stage st s.
Proof.
  induction fuel as [|fuel IH]; intros i c Hc.
  - simpl. intros _ call Hin. by apply not_elem_of_nil in Hin.
  - step_stage it i c kwargs s L R.
    + intros Hall call Hin. apply Forall_cons in Hall as [Hf Hall].
      apply elem_of_cons in Hin as [->|Hin].
      * exists s. simpl. apply Hc.
      * unfold leaves_state_alone in Hf. simpl in Hf.
        refine (IH (S i) _ _ Hall call Hin).
        intros s'. rewrite Hf, Hc. done.
    + intros _ call Hin. apply list_elem_of_singleton in Hin as ->.
      exists s. simpl. apply Hc.
    + intros _ call Hin. by apply not_elem_of_nil in Hin.
Qed.

(** A [compute] that, on the states the loop hands it, returns [f] of
    the current stage and leaves the state alone, makes of the loop a
    map over the items from the index on. *)
Lemma for_stage_in_map (f : Z → Value) (it : nat) (st : ScriptState)
    (kwargs : Kwargs) :
  (∀ s, s ∈ list_at st it →
     compute (set_stage st s) kwargs = (set_stage st s, Returned (f s))) →
  ∀ (fuel i : nat) (c : ScriptState),
    (∀ s, set_stage c s = set_stage st s) →
    (length (list_at st it) - i < fuel)%nat →
    result (for_stage_in fuel it i c kwargs [] [])
      = Some (Returned (f <$> drop i (list_at st it)))
    ∧ calls (for_stage_in fuel it i c kwargs [] [])
      = (λ s, first_call st s kwargs) <$> drop i (list_at st it).
Proof.
  intros Hf. induction fuel as [|fuel IH]; intros i c Hc Hfuel; [lia|].
  assert (Hl : list_at c it = list_at st it).
  { rewrite <- (list_at_set_stage c 0%Z), <- (list_at_set_stage st 0%Z).
    by rewrite Hc. }
  rewrite for_stage_in_step, Hl.
  destruct (list_at st it !! i) as [s|] eqn:L.
  - assert (Hs : compute (set_stage c s) kwargs
                 = (set_stage st s, Returned (f s))).
    { rewrite Hc. apply Hf. by eapply list_elem_of_lookup_2. }
    unfold call_result, call_leaves, first_call. simpl. rewrite Hs. simpl.
    destruct (IH (S i) (set_stage st s) (λ s', eq_refl)) as [-> ->].
    { apply lookup_lt_Some in L. lia. }
    rewrite (drop_S _ _ _ L). simpl. by rewrite Hc.
  - apply lookup_ge_None in L. by rewrite drop_ge.
Qed.

(** X12.  The loop composes: running it for [f1 + f2] rounds is running
    it for [f1] rounds and, if by then it has neither returned nor
    raised, running it on for [f2] rounds from the index and the state
    it has reached, with the calls and the results of the two put one
    after the other; a loop that has returned or raised within [f1]
    rounds is not taken any further. *)
Lemma for_stage_in_app (f1 f2 : nat) :
  ∀ (it i : nat) (st : ScriptState) (kwargs : Kwargs),
    for_stage_in (f1 + f2) it i st kwargs [] [] =
    let r1 := for_stage_in f1 it i st kwargs [] [] in
    match result r1 with
    | Some _ => r1
    | None =>
        let r2 := for_stage_in f2 it (i + length (calls r1))
                    (final_state r1) kwargs [] [] in
        {| final_state := final_state r2;
           calls := calls r1 ++ calls r2;
           result := match result r2 with
                     | Some (Returned v2) =>
                         Some (Returned (returned_values (calls r1) ++ v2))
                     | Some (Raised e) => Some (Raised e)
                     | None => None
                     end |}
    end.
Proof.
  induction f1 as [|f1 IH]; intros it i st kwargs.
  - simpl. rewrite Nat.add_0_r.
    destruct (for_stage_in f2 it i st kwargs [] []) as [c cs [[vs|e]|]]; done.
  - change (S f1 + f2)%nat with (S (f1 + f2)). rewrite !for_stage_in_step.
    destruct (list_at st it !! i) as [s|] eqn:L; [|done].
    destruct (call_result (first_call st s kwargs)) as [v|e] eqn:R; simpl;
      [|done].
    rewrite IH. simpl.
    destruct (result (for_stage_in f1 it (S i) _ kwargs [] []))
      as [[v1|e]|] eqn:R1; simpl; [by rewrite R1|by rewrite R1|].
    rewrite ?R1, ?R, ?Nat.add_succ_r. simpl.
    by destruct (result (for_stage_in f2 it _ _ kwargs [] [])) as [[v2|e]|].
Qed.

(** *** [compute_stages] *)

(** The function is the loop over the list [context.stages] is bound to
    on entry, from its first item on, entered with the keyword arguments
    the filtering rule selects. *)
Lemma compute_stages_loop (fuel : nat) (st : ScriptState) (kwargs : Kwargs) :
  compute_stages fuel st kwargs =
  for_stage_in fuel (stages (context_object st)) 0 st
    (spec_filtered_kwargs compute_parameters kwargs) [] [].
Proof.
  unfold compute_stages, spec_filtered_kwargs.
  destruct (existsb _ _ || existsb _ _) eqn:T; simpl.
  - apply catch_all_test in T. by rewrite decide_True.
  - rewrite decide_False, filter_kwargs_declared; [done|].
    intros D. apply catch_all_test in D. congruence.
Qed.

(** C1.  Stage-count invariant, for calls that leave the list of stages
    alone: when the [compute] calls made for a context all return and
    leave the list [context.stages] was bound to as they found it,
    [compute_stages] returns, within one round more than there are
    stages, a vector with one entry per stage, and its [k]-th entry is
    what the [k]-th call returned, that call being the one made for
    [context.stages[k]]. *)
Theorem compute_stages_result_vector (fuel : nat) (state : ScriptState)
    (kwargs : Kwargs) :
  (length (stage_list state) < fuel)%nat →
  Forall (λ call, is_returned (call_result call) = true)
    (calls (compute_stages fuel state kwargs)) →
  Forall (leaves_list_alone (stages (context_object state)))
    (calls (compute_stages fuel state kwargs)) →
  ∃ vec,
    result (compute_stages fuel state kwargs) = Some (Returned vec)
    ∧ length vec = length (stage_list state)
    ∧ ∀ k s, stage_list state !! k = Some s →
        ∃ call v,
          calls (compute_stages fuel state kwargs) !! k = Some call
          ∧ stage (context_object (call_state call)) = Some s
          ∧ call_result call = Returned v
          ∧ vec !! k = Some v.
Proof.
  rewrite compute_stages_loop. intros Hfuel Hret Hleave.
  destruct (for_stage_in_unchanged _ (stage_list state) _ fuel 0 state
              eq_refl Hleave) as (Hlen & Hend & Hst & Hall & _).
  destruct Hend as [[vec|e] Hres]; [lia| |].
  - destruct (for_stage_in_returned _ _ _ _ _ _ Hres) as [Hvec _].
    specialize (Hall vec Hres).
    exists vec. split; [done|]. split.
    + rewrite <- (Forall2_length _ _ _ Hvec). lia.
    + intros k s Hk.
      destruct (lookup_lt_is_Some_2
        (calls (for_stage_in fuel (stages (context_object state)) 0 state
                  (spec_filtered_kwargs compute_parameters kwargs) [] [])) k)
        as [call Hcall].
      { apply lookup_lt_Some in Hk. lia. }
      destruct (Forall2_lookup_l _ _ _ _ _ Hvec Hcall) as (v & Hv & Hr).
      destruct (for_stage_in_call _ _ _ _ _ _ _ Hcall) as (Hs & _ & _).
      exists call, v. split; [done|]. split; [|done].
      rewrite Hs, (Hst _ _ Hcall). done.
  - destruct (for_stage_in_raised_last _ _ _ _ _ _ Hres)
      as (call & Hlast & He & _).
    apply last_Some_elem_of in Hlast.
    rewrite Forall_forall in Hret. specialize (Hret _ Hlast).
    by rewrite He in Hret.
Qed.

(** C2.  Keyword filtering: every [compute] call receives the keyword
    arguments the filtering rule selects from the incoming ones, which
    are the incoming ones untouched when [compute] declares a catch-all
    of either kind, and otherwise exactly their entries under a declared
    parameter name. *)
Theorem compute_stages_kwargs_filtering (fuel : nat) (state : ScriptState)
    (kwargs : Kwargs) (call : Call) :
  call ∈ calls (compute_stages fuel state kwargs) →
  call_kwargs call = spec_filtered_kwargs compute_parameters kwargs
  ∧ (declares_catch_all compute_parameters → call_kwargs call = kwargs)
  ∧ (¬ declares_catch_all compute_parameters →
     ∀ k v, call_kwargs call !! k = Some v
            ↔ kwargs !! k = Some v ∧ k ∈ compute_parameters.*1).
Proof.
  rewrite compute_stages_loop. intros [k Hk]%list_elem_of_lookup.
  destruct (for_stage_in_call _ _ _ _ _ _ _ Hk) as (_ & _ & ->).
  unfold spec_filtered_kwargs. split; [done|]. split.
  - intros D. by rewrite decide_True.
  - intros D key v. rewrite decide_False by done.
    by rewrite map_lookup_filter_Some.
Qed.

(** C3.  Current-stage side effect: the [k]-th call of [compute] finds
    the current-stage field set to the [k]-th item of the list that
    [context.stages] was bound to when [compute_stages] was called, as
    that list is when the call is made; calls and items go together in
    index order.  So the field equals [context.stages[k]] as read at the
    call whenever the attribute is still bound to that list, and equals
    [context.stages[k]] as read on entry whenever the calls leave that
    list alone. *)
Theorem compute_stages_current_stage (fuel : nat) (state : ScriptState)
    (kwargs : Kwargs) (k : nat) (call : Call) :
  calls (compute_stages fuel state kwargs) !! k = Some call →
  is_Some (stage (context_object (call_state call)))
  ∧ stage (context_object (call_state call))
    = list_at (call_state call) (stages (context_object state)) !! k
  ∧ (stages (context_object (call_state call)) = stages (context_object state) →
     stage (context_object (call_state call)) = stage_list (call_state call) !! k)
  ∧ (Forall (leaves_list_alone (stages (context_object state)))
       (calls (compute_stages fuel state kwargs)) →
     stage (context_object (call_state call)) = stage_list state !! k).
Proof.
  rewrite compute_stages_loop. intros Hk.
  destruct (for_stage_in_call _ _ _ _ _ _ _ Hk) as (Hs & Hsome & _).
  simpl in Hs. split_and!; [done|done| |].
  - intros Hsame. unfold stage_list. by rewrite Hsame.
  - intros Hleave.
    destruct (for_stage_in_unchanged _ (stage_list state) _ fuel 0 state
                eq_refl Hleave) as (_ & _ & Hst & _ & _).
    by rewrite Hs, (Hst _ _ Hk).
Qed.

(** C4.  Fail-fast: when the [compute] call for the [k]-th stage raises,
    [compute_stages] raises that same exception, has made no call after
    it, and returns no vector. *)
Theorem compute_stages_fail_fast (fuel : nat) (state : ScriptState)
    (kwargs : Kwargs) (k : nat) (call : Call) (e : Exn) :
  calls (compute_stages fuel state kwargs) !! k = Some call →
  call_result call = Raised e →
  result (compute_stages fuel state kwargs) = Some (Raised e)
  ∧ length (calls (compute_stages fuel state kwargs)) = S k
  ∧ (∀ j, (k < j)%nat → calls (compute_stages fuel state kwargs) !! j = None)
  ∧ (∀ vec, result (compute_stages fuel state kwargs) ≠ Some (Returned vec)).
Proof.
  rewrite compute_stages_loop. intros Hk He.
  destruct (for_stage_in_raised _ _ _ _ _ _ _ _ Hk He) as (Hr & Hlen & _).
  split; [done|]. split; [done|]. split.
  - intros j Hj. apply lookup_ge_None. rewrite Hlen. lia.
  - intros vec. by rewrite Hr.
Qed.

(** C5.  Identity pass-through on a single stage, for a call that leaves
    the list of stages alone: with [context.stages = [0]] and a
    [compute] call that leaves that list as it found it, the outcome of
    [compute_stages] is that of the one call
    [compute (context, **filtered_kwargs)] made with stage 0 current,
    its value wrapped in a vector of length one. *)
Theorem compute_stages_single_stage (fuel : nat) (state : ScriptState)
    (kwargs : Kwargs) :
  let filtered := spec_filtered_kwargs compute_parameters kwargs in
  stage_list state = [0%Z] →
  leaves_list_alone (stages (context_object state))
    (first_call state 0%Z filtered) →
  (2 ≤ fuel)%nat →
  result (compute_stages fuel state kwargs) =
    Some match (compute (set_stage state 0%Z) filtered).2 with
         | Returned v => Returned [v]
         | Raised e => Raised e
         end
  ∧ calls (compute_stages fuel state kwargs) = [first_call state 0%Z filtered].
Proof.
  intros filtered Hl Hleave Hfuel. rewrite compute_stages_loop.
  fold filtered. destruct fuel as [|[|fuel]]; [lia|lia|].
  unfold stage_list in Hl.
  assert (Hl' : list_at (call_leaves (first_call state 0%Z filtered))
                  (stages (context_object state)) = [0%Z]).
  { rewrite Hleave. exact Hl. }
  rewrite (for_stage_in_step (S fuel)), Hl.
  change ([0%Z] !! 0%nat) with (Some 0%Z). cbv beta iota.
  rewrite (for_stage_in_step fuel), Hl'.
  unfold call_result, first_call. simpl.
  by destruct (compute (set_stage state 0%Z) filtered) as [c [v|e]].
Qed.

(** C9.  No stages: on an empty [context.stages] the function returns
    the empty vector, calls [compute] not once, and hands the context
    back as it got it. *)
Theorem compute_stages_no_stages (fuel : nat) (state : ScriptState)
    (kwargs : Kwargs) :
  stage_list state = [] →
  (0 < fuel)%nat →
  compute_stages fuel state kwargs =
  {| final_state := state; calls := []; result := Some (Returned []) |}.
Proof.
  intros Hnil Hfuel. rewrite compute_stages_loop.
  destruct fuel as [|fuel]; [lia|].
  unfold stage_list in Hnil. by rewrite for_stage_in_step, Hnil.
Qed.

(** C10.  The stage assignment persists: after a [compute_stages] that
    returned on a non-empty [context.stages], the state is as the last
    [compute] call left it, and that call was entered with the item at
    its index current: the layer restores nothing and writes nothing
    after the call.  So with [compute] calls that leave the context and
    the lists as they found them, the current-stage field holds the
    last stage, whatever it held before, and the other fields of the
    context and the lists are as before the call. *)
Theorem compute_stages_leaves_last_stage (fuel : nat) (state : ScriptState)
    (kwargs : Kwargs) (s : Z) (vec : list Value) :
  last (stage_list state) = Some s →
  result (compute_stages fuel state kwargs) = Some (Returned vec) →
  (∃ call, last (calls (compute_stages fuel state kwargs)) = Some call
           ∧ stage (context_object (call_state call))
             = list_at (call_state call) (stages (context_object state))
                 !! pred (length (calls (compute_stages fuel state kwargs)))
           ∧ final_state (compute_stages fuel state kwargs) = call_leaves call)
  ∧ (Forall leaves_state_alone (calls (compute_stages fuel state kwargs)) →
     final_state (compute_stages fuel state kwargs) = set_stage state s).
Proof.
  rewrite compute_stages_loop. intros Hlast Hres.
  assert (Hcall : ∃ call,
    last (calls (for_stage_in fuel (stages (context_object state)) 0 state
                   (spec_filtered_kwargs compute_parameters kwargs) [] []))
    = Some call).
  { apply last_is_Some. destruct fuel as [|fuel]; [done|].
    rewrite for_stage_in_step in Hres |- *.
    destruct (list_at state (stages (context_object state)) !! 0%nat)
      as [s0|] eqn:L.
    - by destruct (call_result (first_call state s0 _)).
    - unfold stage_list in Hlast. apply lookup_ge_None in L.
      destruct (list_at state (stages (context_object state)));
        [done|simpl in L; lia]. }
  destruct Hcall as [call Hcall].
  assert (Hfin := for_stage_in_final fuel (stages (context_object state)) 0
                    state (spec_filtered_kwargs compute_parameters kwargs)).
  rewrite Hcall in Hfin.
  assert (Hk := Hcall). rewrite last_lookup in Hk.
  destruct (for_stage_in_call _ _ _ _ _ _ _ Hk) as (Hs & _ & _).
  simpl in Hs. split; [eauto|].
  intros Hframe. rewrite Hfin.
  assert (Hleave : Forall (leaves_list_alone (stages (context_object state)))
    (calls (for_stage_in fuel (stages (context_object state)) 0 state
              (spec_filtered_kwargs compute_parameters kwargs) [] []))).
  { eapply Forall_impl; [exact Hframe|].
    intros c Hc. unfold leaves_list_alone. by rewrite Hc. }
  destruct (for_stage_in_unchanged _ (stage_list state) _ fuel 0 state
              eq_refl Hleave) as (Hlen & _ & Hst & Hall & _).
  specialize (Hall vec Hres). rewrite (Hst _ _ Hk) in Hs.
  assert (Hn : length (calls (for_stage_in fuel (stages (context_object state))
                 0 state (spec_filtered_kwargs compute_parameters kwargs) [] []))
               = length (stage_list state)) by lia.
  rewrite Hn, <- last_lookup, Hlast in Hs.
  destruct (for_stage_in_framed (stages (context_object state)) state _ fuel 0
              state (λ _, eq_refl) Hframe call (last_Some_elem_of _ _ Hcall))
    as [s' Hs'].
  rewrite Forall_forall in Hframe.
  rewrite (Hframe _ (last_Some_elem_of _ _ Hcall)), Hs'.
  rewrite Hs' in Hs. simpl in Hs. by injection Hs as ->.
Qed.

(** *** More on [compute_stages] *)

(** X1.  The first [compute] call, if there is a stage at all, gets the
    state [compute_stages] was called with, with the first stage made
    current and nothing else touched; without stages there is no call. *)
Theorem compute_stages_first_call (fuel : nat) (state : ScriptState)
    (kwargs : Kwargs) :
  (0 < fuel)%nat →
  call_state <$> calls (compute_stages fuel state kwargs) !! 0%nat
  = set_stage state <$> stage_list state !! 0%nat.
Proof.
  intros Hfuel. rewrite compute_stages_loop.
  destruct fuel as [|fuel]; [lia|]. rewrite for_stage_in_step.
  unfold stage_list.
  destruct (list_at state (stages (context_object state)) !! 0%nat)
    as [s|]; [|done].
  by destruct (call_result (first_call state s _)).
Qed.

(** X2.  Between two consecutive [compute] calls the layer assigns the
    stage and nothing else: a call after the first gets the state its
    predecessor left, with the item made current that the list
    [context.stages] was bound to on entry then has at the index of the
    call. *)
Theorem compute_stages_between_calls (fuel : nat) (state : ScriptState)
    (kwargs : Kwargs) (k : nat) (before call : Call) :
  calls (compute_stages fuel state kwargs) !! k = Some before →
  calls (compute_stages fuel state kwargs) !! S k = Some call →
  ∃ s, list_at (call_leaves before) (stages (context_object state)) !! S k
       = Some s
       ∧ call_state call = set_stage (call_leaves before) s.
Proof.
  rewrite compute_stages_loop. intros Hb Hc.
  destruct (for_stage_in_chain fuel (stages (context_object state)) 0 state
              (spec_filtered_kwargs compute_parameters kwargs)) as [_ Hchain].
  destruct (Hchain _ _ _ Hb Hc) as (s & Hs & ->). eauto.
Qed.

(** X3.  [compute_stages] raises nothing of its own: an exception it
    raises is the one its last [compute] call raised, and the state is
    left as that call left it. *)
Theorem compute_stages_raises_from_compute (fuel : nat) (state : ScriptState)
    (kwargs : Kwargs) (e : Exn) :
  result (compute_stages fuel state kwargs) = Some (Raised e) →
  ∃ call, last (calls (compute_stages fuel state kwargs)) = Some call
          ∧ call_result call = Raised e
          ∧ final_state (compute_stages fuel state kwargs) = call_leaves call.
Proof. rewrite compute_stages_loop. apply for_stage_in_raised_last. Qed.

(** X4.  Every [compute] call but the last one made has returned: a
    call is only made after all calls before it have returned. *)
Theorem compute_stages_earlier_calls_returned (fuel : nat)
    (state : ScriptState) (kwargs : Kwargs) (j : nat) (call : Call) :
  calls (compute_stages fuel state kwargs) !! j = Some call →
  (S j < length (calls (compute_stages fuel state kwargs)))%nat →
  ∃ v, call_result call = Returned v.
Proof.
  rewrite compute_stages_loop. intros Hj Hlen.
  pose proof (for_stage_in_earlier_returned _ _ _ _ _ _ _ Hj Hlen) as Hr.
  destruct (call_result call) as [v|e]; [eauto|done].
Qed.

(** X5.  One call per stage at most, for calls that leave the list of
    stages alone: then a [compute_stages] that returned has made
    exactly one call per stage and its vector has one entry per stage,
    and one that raised has made at least one call and at most one per
    stage. *)
Theorem compute_stages_calls_count (fuel : nat) (state : ScriptState)
    (kwargs : Kwargs) :
  Forall (leaves_list_alone (stages (context_object state)))
    (calls (compute_stages fuel state kwargs)) →
  match result (compute_stages fuel state kwargs) with
  | Some (Returned vec) =>
      length (calls (compute_stages fuel state kwargs))
        = length (stage_list state)
      ∧ length vec = length (stage_list state)
  | Some (Raised _) =>
      (1 ≤ length (calls (compute_stages fuel state kwargs))
       ≤ length (stage_list state))%nat
  | None =>
      (length (calls (compute_stages fuel state kwargs))
       ≤ length (stage_list state))%nat
  end.
Proof.
  rewrite compute_stages_loop. intros Hleave.
  destruct (for_stage_in_unchanged _ (stage_list state) _ fuel 0 state
              eq_refl Hleave) as (Hlen & _ & _ & Hall & _).
  destruct (result (for_stage_in _ _ _ _ _ _ _)) as [[vec|e]|] eqn:R.
  - destruct (for_stage_in_returned _ _ _ _ _ _ R) as [Hvec _].
    specialize (Hall vec eq_refl).
    rewrite <- (Forall2_length _ _ _ Hvec). lia.
  - split; [|lia].
    destruct (for_stage_in_raised_last _ _ _ _ _ _ R) as (call & Hcall & _).
    destruct (calls (for_stage_in _ _ _ _ _ _ _)); [done|simpl; lia].
  - lia.
Qed.

(** X6.  What the current-stage field holds when [compute_stages] is
    called plays no part once there is a stage: calls, outcome and the
    state left behind are the same whatever it held. *)
Theorem compute_stages_initial_stage_irrelevant (fuel : nat) (a b : option Z)
    (r : nat) (h : Host) (lists : gmap nat (list Z)) (kwargs : Kwargs) :
  lists !!! r ≠ [] →
  (0 < fuel)%nat →
  compute_stages fuel
    {| context_object := {| stage := a; stages := r; host_data := h |};
       list_objects := lists |} kwargs
  = compute_stages fuel
      {| context_object := {| stage := b; stages := r; host_data := h |};
         list_objects := lists |} kwargs.
Proof.
  intros Hl Hfuel. rewrite !compute_stages_loop. simpl.
  destruct fuel as [|fuel]; [lia|]. rewrite !for_stage_in_step.
  unfold list_at. simpl.
  destruct (lists !!! r) as [|s l]; done.
Qed.

(** X7.  Without a catch-all, a keyword argument under a name [compute]
    does not declare is of no consequence: adding one, or changing its
    value, changes nothing in what [compute_stages] does. *)
Theorem compute_stages_undeclared_keyword (fuel : nat) (state : ScriptState)
    (kwargs : Kwargs) (k : string) (v : Value) :
  ¬ declares_catch_all compute_parameters →
  k ∉ compute_parameters.*1 →
  compute_stages fuel state (<[k := v]> kwargs)
  = compute_stages fuel state kwargs.
Proof.
  intros D Hk. rewrite !compute_stages_loop. unfold spec_filtered_kwargs.
  rewrite !decide_False by done.
  by rewrite map_filter_insert_not.
Qed.

(** X8.  The keyword arguments of a [compute] call are among the
    incoming ones, with the values they came with: none is made up and
    none is changed. *)
Theorem compute_stages_kwargs_subset (fuel : nat) (state : ScriptState)
    (kwargs : Kwargs) (call : Call) :
  call ∈ calls (compute_stages fuel state kwargs) →
  call_kwargs call ⊆ kwargs.
Proof.
  rewrite compute_stages_loop. intros [k Hk]%list_elem_of_lookup.
  destruct (for_stage_in_call _ _ _ _ _ _ _ Hk) as (_ & _ & ->).
  unfold spec_filtered_kwargs. case_decide; [done|].
  apply map_filter_subseteq.
Qed.

(** X9.  Keyword arguments that all go by declared parameter names
    reach [compute] as they are, catch-all or not. *)
Theorem compute_stages_declared_kwargs (fuel : nat) (state : ScriptState)
    (kwargs : Kwargs) (call : Call) :
  (∀ k, is_Some (kwargs !! k) → k ∈ compute_parameters.*1) →
  call ∈ calls (compute_stages fuel state kwargs) →
  call_kwargs call = kwargs.
Proof.
  rewrite compute_stages_loop. intros Hdecl [k Hk]%list_elem_of_lookup.
  destruct (for_stage_in_call _ _ _ _ _ _ _ Hk) as (_ & _ & ->).
  unfold spec_filtered_kwargs. case_decide; [done|].
  apply map_filter_id. intros key v Hv. simpl. apply Hdecl. eauto.
Qed.

(** X10.  Filtering once is enough: calling [compute_stages] again with
    the keyword arguments one of its [compute] calls received does what
    the call with the incoming ones did. *)
Theorem compute_stages_filtered_again (fuel : nat) (state : ScriptState)
    (kwargs : Kwargs) (call : Call) :
  call ∈ calls (compute_stages fuel state kwargs) →
  compute_stages fuel state (call_kwargs call)
  = compute_stages fuel state kwargs.
Proof.
  intros Hin. rewrite (compute_stages_loop fuel state (call_kwargs call)).
  rewrite compute_stages_loop in Hin |- *.
  apply list_elem_of_lookup in Hin as [k Hk].
  destruct (for_stage_in_call _ _ _ _ _ _ _ Hk) as (_ & _ & ->).
  f_equal. unfold spec_filtered_kwargs. case_decide; [done|].
  apply map_filter_id. intros key v Hv. simpl.
  by apply map_lookup_filter_Some in Hv as [_ Hv].
Qed.

(** X11.  For a [compute] that, with each stage of the context current,
    returns [f] of that stage and leaves the state alone,
    [compute_stages] is the map of [f] over [context.stages]: within
    one round more than there are stages it returns the vector of the
    [f] values, has made one call per stage out of the incoming state,
    and leaves the state with the last stage current. *)
Theorem compute_stages_is_map (f : Z → Value) (fuel : nat)
    (state : ScriptState) (kwargs : Kwargs) :
  (∀ s, s ∈ stage_list state →
     compute (set_stage state s)
       (spec_filtered_kwargs compute_parameters kwargs)
     = (set_stage state s, Returned (f s))) →
  (length (stage_list state) < fuel)%nat →
  result (compute_stages fuel state kwargs)
    = Some (Returned (f <$> stage_list state))
  ∧ calls (compute_stages fuel state kwargs)
    = (λ s, first_call state s
              (spec_filtered_kwargs compute_parameters kwargs))
      <$> stage_list state
  ∧ final_state (compute_stages fuel state kwargs)
    = match last (stage_list state) with
      | Some s => set_stage state s
      | None => state
      end.
Proof.
  intros Hf Hfuel. rewrite compute_stages_loop.
  destruct (for_stage_in_map f (stages (context_object state)) state _ Hf
              fuel 0 state (λ s, eq_refl)) as [Hres Hcalls].
  { unfold stage_list in Hfuel. lia. }
  fold (stage_list state) in Hres, Hcalls.
  rewrite drop_0 in Hres, Hcalls. split; [done|]. split; [done|].
  rewrite for_stage_in_final, Hcalls, fmap_last.
  destruct (last (stage_list state)) as [s|] eqn:Hlast; [|done]. simpl.
  unfold call_leaves, first_call. simpl.
  by rewrite (Hf s (last_Some_elem_of _ _ Hlast)).
Qed.

End ScriptedElement.

Section Construction.

Context {Obj Registered : Type}.

Variable Contribution__init__ : Obj → @ContributionArguments Obj → Registered.

(** C6.  Category fixation: constructing a [ScriptedActual] constructs
    a contribution of category [scriptedelement.actual], constructing a
    [ScriptedCheck] one of category [scriptedelement.check], whatever
    name and element type they are constructed with. *)
Theorem category_fixed_by_variant (self : Obj) (name element_type : string) :
  (∃ args, ScriptedActual__init__ Contribution__init__ self name element_type
             = Contribution__init__ self args
           ∧ category args = "scriptedelement.actual")
  ∧ (∃ args, ScriptedCheck__init__ Contribution__init__ self name element_type
               = Contribution__init__ self args
             ∧ category args = "scriptedelement.check").
Proof. split; eexists; (split; [reflexivity|]); reflexivity. Qed.

(** C8.  Registration: constructing a scripted element constructs a
    contribution with two callables, named [dialog] and
    [compute_stages] and bound to the element's own methods of these
    names, and with one property, named [element_type] and holding the
    element type given. *)
Theorem ScriptedElement_registration (self : Obj)
    (name element_type category : string) :
  ∃ args,
    ScriptedElement__init__ Contribution__init__ self name element_type category
      = Contribution__init__ self args
    ∧ dom (callables args) = {["dialog"; "compute_stages"]}
    ∧ size (callables args) = 2%nat
    ∧ callables args !! "dialog" = Some (BoundMethod self "dialog")
    ∧ callables args !! "compute_stages"
      = Some (BoundMethod self "compute_stages")
    ∧ dom (properties args) = {["element_type"]}
    ∧ size (properties args) = 1%nat
    ∧ properties args !! "element_type" = Some element_type.
Proof.
  eexists. split; [reflexivity|]. simpl. repeat apply conj.
  - rewrite !dom_insert_L, dom_empty_L. set_solver.
  - by rewrite !map_size_insert_None, map_size_empty.
  - by rewrite lookup_insert_ne, lookup_insert_eq.
  - by rewrite lookup_insert_eq.
  - rewrite dom_insert_L, dom_empty_L. set_solver.
  - by rewrite map_size_insert_None, map_size_empty.
  - by rewrite lookup_insert_eq.
Qed.

(** X13.  The two variants differ in the category and in nothing else:
    a [ScriptedActual] and a [ScriptedCheck] constructed with the same
    name and element type hand that name on as it is and expose the
    same callables and the same properties, under different categories. *)
Theorem variants_differ_in_category_only (self : Obj)
    (name element_type : string) :
  ∃ actual check,
    ScriptedActual__init__ Contribution__init__ self name element_type
      = Contribution__init__ self actual
    ∧ ScriptedCheck__init__ Contribution__init__ self name element_type
      = Contribution__init__ self check
    ∧ Extensions.name actual = name
    ∧ Extensions.name check = name
    ∧ callables actual = callables check
    ∧ properties actual = properties check
    ∧ category actual ≠ category check.
Proof.
  eexists _, _. split; [reflexivity|]. split; [reflexivity|].
  simpl. repeat apply conj; done.
Qed.

End Construction.

End ExtensionsFacts.

Module DialogFacts.

Import Dialog.

Section Execute.

Context {ScriptContext Value Exn HostState : Type}.

Variable __call_function__ :
  ScriptContext → string → HostState → HostState * outcome Exn Value.

(** C7.  Pass-through: [execute (context, data)] is the host call
    [__call_function__ (context, data)]: both arguments go over as they
    are, a value the host returns is returned as it is, and an exception
    the host raises is raised as it is. *)
Theorem execute_is_host_call (context : ScriptContext) (data : string)
    (host : HostState) :
  execute __call_function__ context data host = __call_function__ context data host
  ∧ (∀ host' v, __call_function__ context data host = (host', Returned v) →
       execute __call_function__ context data host = (host', Returned v))
  ∧ (∀ host' e, __call_function__ context data host = (host', Raised e) →
       execute __call_function__ context data host = (host', Raised e)).
Proof. unfold execute. auto. Qed.

End Execute.

End DialogFacts.

Module DemoFacts.

Import Extensions ExtensionsFacts Demo.

(** The keyword filtering of the specification's examples. *)
Example filtering_without_catch_all :
  map call_kwargs
    (calls (compute_stages (Methods := Offset) 3 (project [5; 6]%Z) widgets))
  = [declared_widgets; declared_widgets].
Proof. vm_compute. reflexivity. Qed.

Example filtering_with_catch_all :
  map call_kwargs
    (calls (compute_stages (Methods := OffsetOthers) 3 (project [5; 6]%Z) widgets))
  = [widgets; widgets].
Proof. vm_compute. reflexivity. Qed.

Example three_stages :
  result (compute_stages (Methods := Offset) 4 (project [5; 6; 8]%Z) widgets)
  = Some (Returned [6; 7; 9]%Z).
Proof. vm_compute. reflexivity. Qed.

Example second_of_three_raises :
  compute_stages (Methods := Offset) 4 (project [5; 7; 8]%Z) widgets
  = {| final_state := set_stage (project [5; 7; 8]%Z) 7%Z;
       calls := [first_call (project [5; 7; 8]%Z) 5%Z declared_widgets;
                 first_call (project [5; 7; 8]%Z) 7%Z declared_widgets];
       result := Some (Raised "ValueError") |}.
Proof. vm_compute. reflexivity. Qed.

(** A loop over a list that [compute] makes longer visits the new item
    too, and is cut off if it is not given the rounds for that. *)
Example appended_stage_is_visited :
  result (compute_stages (Methods := Appender) 3 (project [0%Z]) ∅)
    = Some (Returned [0; 1]%Z)
  ∧ result (compute_stages (Methods := Appender) 2 (project [0%Z]) ∅) = None.
Proof. split; vm_compute; reflexivity. Qed.

Lemma Offset_no_catch_all :
  ¬ declares_catch_all (@compute_parameters _ _ _ Offset).
Proof.
  unfold declares_catch_all. simpl.
  rewrite !Exists_cons, Exists_nil. simpl.
  intros [[?|?]|[[?|?]|[[?|?]|[]]]]; discriminate.
Qed.

Lemma Offset_returns_589 :
  Forall (λ call, is_returned (call_result (Methods := Offset) call) = true)
    (calls (compute_stages (Methods := Offset) 4 (project [5; 6; 8]%Z) widgets)).
Proof. repeat (constructor; [vm_compute; reflexivity|]). constructor. Qed.

Lemma Offset_leaves_state_alone (fuel : nat) (l : list Z) (kwargs : gmap string Z) :
  Forall (leaves_state_alone (Methods := Offset))
    (calls (compute_stages (Methods := Offset) fuel (project l) kwargs)).
Proof. apply Forall_forall. intros call _. reflexivity. Qed.

Lemma Offset_leaves_list_alone (fuel : nat) (l : list Z) (kwargs : gmap string Z) :
  Forall (leaves_list_alone (Methods := Offset) 0)
    (calls (compute_stages (Methods := Offset) fuel (project l) kwargs)).
Proof. apply Forall_forall. intros call _. reflexivity. Qed.

(** *** C1 *)

(** With [Appender] and the one stage 0, every call returns, and the
    vector returned has two entries for a list of stages that had one
    when [compute_stages] was called. *)
Lemma compute_stages_result_vector_counterexample :
  Forall (λ call, is_returned (call_result (Methods := Appender) call) = true)
    (calls (compute_stages (Methods := Appender) 3 (project [0%Z]) ∅))
  ∧ ∃ vec,
      result (compute_stages (Methods := Appender) 3 (project [0%Z]) ∅)
        = Some (Returned vec)
      ∧ length vec = 2%nat
      ∧ length (stage_list (project [0%Z])) = 1%nat.
Proof.
  split.
  - repeat (constructor; [vm_compute; reflexivity|]). constructor.
  - exists [0; 1]%Z. split_and!; vm_compute; reflexivity.
Qed.

Lemma compute_stages_result_vector_witness :
  (length (stage_list (project [5; 6; 8]%Z)) < 4)%nat
  ∧ Forall (λ call, is_returned (call_result (Methods := Offset) call) = true)
      (calls (compute_stages (Methods := Offset) 4 (project [5; 6; 8]%Z) widgets))
  ∧ Forall (leaves_list_alone (Methods := Offset) 0)
      (calls (compute_stages (Methods := Offset) 4 (project [5; 6; 8]%Z) widgets))
  ∧ ∃ vec,
      result (compute_stages (Methods := Offset) 4 (project [5; 6; 8]%Z) widgets)
        = Some (Returned vec)
      ∧ length vec = length (stage_list (project [5; 6; 8]%Z))
      ∧ ∀ k s, stage_list (project [5; 6; 8]%Z) !! k = Some s →
          ∃ call v,
            calls (compute_stages (Methods := Offset) 4 (project [5; 6; 8]%Z) widgets)
              !! k = Some call
            ∧ stage (context_object (call_state call)) = Some s
            ∧ call_result (Methods := Offset) call = Returned v
            ∧ vec !! k = Some v.
Proof.
  assert (Hf : (length (stage_list (project [5; 6; 8]%Z)) < 4)%nat).
  { vm_compute. lia. }
  split; [exact Hf|]. split; [exact Offset_returns_589|].
  split; [exact (Offset_leaves_list_alone 4 _ _)|].
  exact (compute_stages_result_vector (Methods := Offset) 4
           (project [5; 6; 8]%Z) widgets Hf Offset_returns_589
           (Offset_leaves_list_alone 4 _ _)).
Defined.

(** *** C2 *)

Lemma compute_stages_kwargs_filtering_witness :
  first_call (project [5; 6]%Z) 5%Z declared_widgets
    ∈ calls (compute_stages (Methods := Offset) 3 (project [5; 6]%Z) widgets)
  ∧ ∀ k v, declared_widgets !! k = Some v
           ↔ widgets !! k = Some v ∧ k ∈ ["context"; "a"; "b"].
Proof.
  assert (H : first_call (project [5; 6]%Z) 5%Z declared_widgets
    ∈ calls (compute_stages (Methods := Offset) 3 (project [5; 6]%Z) widgets)).
  { apply list_elem_of_lookup. exists 0%nat. vm_compute. reflexivity. }
  split; [exact H|].
  exact (proj2 (proj2 (compute_stages_kwargs_filtering (Methods := Offset) 3
                         (project [5; 6]%Z) widgets _ H)) Offset_no_catch_all).
Defined.

(** *** C3 *)

(** With [Rebinder] and the stages 5 and 6, the second call is entered
    with stage 7, which is neither the second item [context.stages] had
    on entry nor the second item it has at the call. *)
Lemma compute_stages_current_stage_counterexample :
  ∃ call,
    calls (compute_stages (Methods := Rebinder) 3 (project [5; 6]%Z) ∅) !! 1%nat
      = Some call
    ∧ stage (context_object (call_state call)) = Some 7%Z
    ∧ stage_list (project [5; 6]%Z) !! 1%nat = Some 6%Z
    ∧ stage_list (call_state call) !! 1%nat = Some 9%Z.
Proof.
  eexists. split; [vm_compute; reflexivity|].
  split_and!; vm_compute; reflexivity.
Qed.

Lemma compute_stages_current_stage_witness :
  calls (compute_stages (Methods := Offset) 4 (project [5; 6; 8]%Z) widgets) !! 2%nat
    = Some (first_call (project [5; 6; 8]%Z) 8%Z declared_widgets)
  ∧ stage (context_object (set_stage (project [5; 6; 8]%Z) 8%Z))
    = list_at (set_stage (project [5; 6; 8]%Z) 8%Z) 0 !! 2%nat.
Proof.
  assert (H : calls (compute_stages (Methods := Offset) 4 (project [5; 6; 8]%Z) widgets)
                !! 2%nat
    = Some (first_call (project [5; 6; 8]%Z) 8%Z declared_widgets)).
  { vm_compute. reflexivity. }
  split; [exact H|].
  exact (proj1 (proj2 (compute_stages_current_stage (Methods := Offset) 4
                         (project [5; 6; 8]%Z) widgets 2 _ H))).
Defined.

(** *** C4 *)

Lemma compute_stages_fail_fast_witness :
  calls (compute_stages (Methods := Offset) 4 (project [5; 7; 8]%Z) widgets) !! 1%nat
    = Some (first_call (project [5; 7; 8]%Z) 7%Z declared_widgets)
  ∧ call_result (Methods := Offset)
      (first_call (project [5; 7; 8]%Z) 7%Z declared_widgets)
    = Raised "ValueError"
  ∧ result (compute_stages (Methods := Offset) 4 (project [5; 7; 8]%Z) widgets)
    = Some (Raised "ValueError")
  ∧ length (calls (compute_stages (Methods := Offset) 4 (project [5; 7; 8]%Z) widgets))
    = 2%nat.
Proof.
  assert (H : calls (compute_stages (Methods := Offset) 4 (project [5; 7; 8]%Z) widgets)
                !! 1%nat
    = Some (first_call (project [5; 7; 8]%Z) 7%Z declared_widgets)).
  { vm_compute. reflexivity. }
  assert (E : call_result (Methods := Offset)
      (first_call (project [5; 7; 8]%Z) 7%Z declared_widgets)
    = Raised "ValueError").
  { vm_compute. reflexivity. }
  split; [exact H|]. split; [exact E|].
  destruct (compute_stages_fail_fast (Methods := Offset) 4
              (project [5; 7; 8]%Z) widgets 1 _ _ H E) as (Hr & Hl & _).
  split; [exact Hr|exact Hl].
Defined.

(** *** C5 *)

(** With [Appender] and [context.stages = [0]], the call for stage 0
    returns 0, and [compute_stages] makes two calls and returns a vector
    of two entries. *)
Lemma compute_stages_single_stage_counterexample :
  stage_list (project [0%Z]) = [0%Z]
  ∧ (compute (ScriptedElementMethods := Appender) (set_stage (project [0%Z]) 0%Z)
       (spec_filtered_kwargs (@compute_parameters _ _ _ Appender) ∅)).2
    = Returned 0%Z
  ∧ result (compute_stages (Methods := Appender) 3 (project [0%Z]) ∅)
    = Some (Returned [0; 1]%Z)
  ∧ length (calls (compute_stages (Methods := Appender) 3 (project [0%Z]) ∅))
    = 2%nat.
Proof. split_and!; vm_compute; reflexivity. Qed.

Lemma compute_stages_single_stage_witness :
  stage_list (project [0%Z]) = [0%Z]
  ∧ leaves_list_alone (Methods := Offset) 0
      (first_call (project [0%Z]) 0%Z
         (spec_filtered_kwargs (@compute_parameters _ _ _ Offset) widgets))
  ∧ (2 ≤ 2)%nat
  ∧ result (compute_stages (Methods := Offset) 2 (project [0%Z]) widgets)
    = Some (Returned [1%Z]).
Proof.
  assert (Hl : stage_list (project [0%Z]) = [0%Z]) by reflexivity.
  assert (Ha : leaves_list_alone (Methods := Offset) 0
      (first_call (project [0%Z]) 0%Z
         (spec_filtered_kwargs (@compute_parameters _ _ _ Offset) widgets)))
    by reflexivity.
  assert (Hf : (2 ≤ 2)%nat) by lia.
  split; [exact Hl|]. split; [exact Ha|]. split; [exact Hf|].
  rewrite (proj1 (compute_stages_single_stage (Methods := Offset) 2
                    (project [0%Z]) widgets Hl Ha Hf)).
  vm_compute. reflexivity.
Defined.

(** *** C9 *)

Lemma compute_stages_no_stages_witness :
  stage_list (project []) = []
  ∧ (0 < 1)%nat
  ∧ compute_stages (Methods := Offset) 1 (project []) widgets
    = {| final_state := project []; calls := []; result := Some (Returned []) |}.
Proof.
  assert (Hf : (0 < 1)%nat) by lia.
  split; [reflexivity|]. split; [exact Hf|].
  exact (compute_stages_no_stages (Methods := Offset) 1 (project []) widgets
           eq_refl Hf).
Defined.

(** *** C10 *)

(** With [Clearer] and the stages 5 and 6, [compute_stages] returns
    with stage 5 current, while the last stage was 6 on entry and the
    list is left empty. *)
Lemma compute_stages_leaves_last_stage_counterexample :
  last (stage_list (project [5; 6]%Z)) = Some 6%Z
  ∧ result (compute_stages (Methods := Clearer) 3 (project [5; 6]%Z) ∅)
    = Some (Returned [5%Z])
  ∧ stage (context_object
             (final_state
                (compute_stages (Methods := Clearer) 3 (project [5; 6]%Z) ∅)))
    = Some 5%Z
  ∧ stage_list (final_state
                  (compute_stages (Methods := Clearer) 3 (project [5; 6]%Z) ∅))
    = [].
Proof. split_and!; vm_compute; reflexivity. Qed.

Lemma compute_stages_leaves_last_stage_witness :
  last (stage_list (project [5; 6; 8]%Z)) = Some 8%Z
  ∧ result (compute_stages (Methods := Offset) 4 (project [5; 6; 8]%Z) widgets)
    = Some (Returned [6; 7; 9]%Z)
  ∧ Forall (leaves_state_alone (Methods := Offset))
      (calls (compute_stages (Methods := Offset) 4 (project [5; 6; 8]%Z) widgets))
  ∧ final_state (compute_stages (Methods := Offset) 4 (project [5; 6; 8]%Z) widgets)
    = set_stage (project [5; 6; 8]%Z) 8%Z.
Proof.
  split; [reflexivity|]. split; [exact three_stages|].
  split; [exact (Offset_leaves_state_alone 4 _ _)|].
  exact (proj2 (compute_stages_leaves_last_stage (Methods := Offset) 4
                  (project [5; 6; 8]%Z) widgets 8%Z _ eq_refl three_stages)
           (Offset_leaves_state_alone 4 _ _)).
Defined.

(** *** The elements at work, once more *)

Lemma compute_stages_first_call_witness :
  (0 < 3)%nat
  ∧ call_state
      <$> calls (compute_stages (Methods := Offset) 3 (project [5; 6]%Z) widgets)
          !! 0%nat
    = set_stage (project [5; 6]%Z) <$> stage_list (project [5; 6]%Z) !! 0%nat.
Proof.
  assert (Hf : (0 < 3)%nat) by lia.
  split; [exact Hf|].
  exact (compute_stages_first_call (Methods := Offset) 3
           (project [5; 6]%Z) widgets Hf).
Defined.

Lemma compute_stages_between_calls_witness :
  calls (compute_stages (Methods := Appender) 3 (project [0%Z]) ∅) !! 0%nat
    = Some (first_call (project [0%Z]) 0%Z ∅)
  ∧ calls (compute_stages (Methods := Appender) 3 (project [0%Z]) ∅) !! 1%nat
    = Some (first_call
              (call_leaves (Methods := Appender) (first_call (project [0%Z]) 0%Z ∅))
              1%Z ∅)
  ∧ ∃ s, list_at (call_leaves (Methods := Appender)
                    (first_call (project [0%Z]) 0%Z ∅)) 0 !! 1%nat = Some s
         ∧ set_stage (call_leaves (Methods := Appender)
                        (first_call (project [0%Z]) 0%Z ∅)) 1%Z
           = set_stage (call_leaves (Methods := Appender)
                          (first_call (project [0%Z]) 0%Z ∅)) s.
Proof.
  assert (H0 : calls (compute_stages (Methods := Appender) 3 (project [0%Z]) ∅)
                 !! 0%nat
    = Some (first_call (project [0%Z]) 0%Z ∅)).
  { vm_compute. reflexivity. }
  assert (H1 : calls (compute_stages (Methods := Appender) 3 (project [0%Z]) ∅)
                 !! 1%nat
    = Some (first_call
              (call_leaves (Methods := Appender) (first_call (project [0%Z]) 0%Z ∅))
              1%Z ∅)).
  { vm_compute. reflexivity. }
  split; [exact H0|]. split; [exact H1|].
  exact (compute_stages_between_calls (Methods := Appender) 3
           (project [0%Z]) ∅ 0 _ _ H0 H1).
Defined.

Lemma compute_stages_raises_from_compute_witness :
  result (compute_stages (Methods := Offset) 4 (project [5; 7; 8]%Z) widgets)
    = Some (Raised "ValueError")
  ∧ ∃ call,
      last (calls (compute_stages (Methods := Offset) 4 (project [5; 7; 8]%Z) widgets))
        = Some call
      ∧ call_result (Methods := Offset) call = Raised "ValueError"
      ∧ final_state (compute_stages (Methods := Offset) 4 (project [5; 7; 8]%Z) widgets)
        = call_leaves (Methods := Offset) call.
Proof.
  assert (H : result (compute_stages (Methods := Offset) 4 (project [5; 7; 8]%Z) widgets)
    = Some (Raised "ValueError")).
  { vm_compute. reflexivity. }
  split; [exact H|].
  exact (compute_stages_raises_from_compute (Methods := Offset) 4
           (project [5; 7; 8]%Z) widgets _ H).
Defined.

Lemma compute_stages_earlier_calls_returned_witness :
  calls (compute_stages (Methods := Offset) 4 (project [5; 7; 8]%Z) widgets) !! 0%nat
    = Some (first_call (project [5; 7; 8]%Z) 5%Z declared_widgets)
  ∧ (1 < length (calls (compute_stages (Methods := Offset) 4
                          (project [5; 7; 8]%Z) widgets)))%nat
  ∧ ∃ v, call_result (Methods := Offset)
           (first_call (project [5; 7; 8]%Z) 5%Z declared_widgets) = Returned v.
Proof.
  assert (H0 : calls (compute_stages (Methods := Offset) 4 (project [5; 7; 8]%Z) widgets)
                 !! 0%nat
    = Some (first_call (project [5; 7; 8]%Z) 5%Z declared_widgets)).
  { vm_compute. reflexivity. }
  assert (Hl : (1 < length (calls (compute_stages (Methods := Offset) 4
                                     (project [5; 7; 8]%Z) widgets)))%nat).
  { vm_compute. lia. }
  split; [exact H0|]. split; [exact Hl|].
  exact (compute_stages_earlier_calls_returned (Methods := Offset) 4
           (project [5; 7; 8]%Z) widgets 0 _ H0 Hl).
Defined.

Lemma compute_stages_calls_count_witness :
  Forall (leaves_list_alone (Methods := Offset) 0)
    (calls (compute_stages (Methods := Offset) 4 (project [5; 7; 8]%Z) widgets))
  ∧ (1 ≤ length (calls (compute_stages (Methods := Offset) 4
                          (project [5; 7; 8]%Z) widgets))
     ≤ length (stage_list (project [5; 7; 8]%Z)))%nat.
Proof.
  split; [exact (Offset_leaves_list_alone 4 _ _)|].
  pose proof (compute_stages_calls_count (Methods := Offset) 4
                (project [5; 7; 8]%Z) widgets (Offset_leaves_list_alone 4 _ _))
    as H.
  rewrite (f_equal result second_of_three_raises) in H. exact H.
Defined.

Lemma compute_stages_initial_stage_irrelevant_witness :
  (<[0%nat := [5; 6]%Z]> ∅ : gmap nat (list Z)) !!! 0%nat ≠ []
  ∧ (0 < 3)%nat
  ∧ compute_stages (Methods := Offset) 3
      {| context_object := {| stage := None; stages := 0%nat; host_data := tt |};
         list_objects := <[0%nat := [5; 6]%Z]> ∅ |} widgets
    = compute_stages (Methods := Offset) 3
        {| context_object :=
             {| stage := Some 9%Z; stages := 0%nat; host_data := tt |};
           list_objects := <[0%nat := [5; 6]%Z]> ∅ |} widgets.
Proof.
  assert (H : (<[0%nat := [5; 6]%Z]> ∅ : gmap nat (list Z)) !!! 0%nat ≠ []).
  { vm_compute. discriminate. }
  assert (Hf : (0 < 3)%nat) by lia.
  split; [exact H|]. split; [exact Hf|].
  exact (compute_stages_initial_stage_irrelevant (Methods := Offset) 3
           None (Some 9%Z) 0 tt _ widgets H Hf).
Defined.

Lemma compute_stages_undeclared_keyword_witness :
  (¬ declares_catch_all (@compute_parameters _ _ _ Offset))
  ∧ ("c" ∉ (@compute_parameters _ _ _ Offset).*1)
  ∧ compute_stages (Methods := Offset) 3 (project [5; 6]%Z)
      (<["c" := 3%Z]> declared_widgets)
    = compute_stages (Methods := Offset) 3 (project [5; 6]%Z) declared_widgets.
Proof.
  assert (Hc : "c" ∉ (@compute_parameters _ _ _ Offset).*1).
  { simpl. rewrite !not_elem_of_cons.
    repeat split; try discriminate. apply not_elem_of_nil. }
  split; [exact Offset_no_catch_all|]. split; [exact Hc|].
  exact (compute_stages_undeclared_keyword (Methods := Offset) 3
           (project [5; 6]%Z) declared_widgets "c" 3%Z Offset_no_catch_all Hc).
Defined.

Lemma compute_stages_kwargs_subset_witness :
  first_call (project [5; 6]%Z) 5%Z declared_widgets
    ∈ calls (compute_stages (Methods := Offset) 3 (project [5; 6]%Z) widgets)
  ∧ declared_widgets ⊆ widgets.
Proof.
  assert (H : first_call (project [5; 6]%Z) 5%Z declared_widgets
    ∈ calls (compute_stages (Methods := Offset) 3 (project [5; 6]%Z) widgets)).
  { apply list_elem_of_lookup. exists 0%nat. vm_compute. reflexivity. }
  split; [exact H|].
  exact (compute_stages_kwargs_subset (Methods := Offset) 3
           (project [5; 6]%Z) widgets _ H).
Defined.

Lemma compute_stages_declared_kwargs_witness :
  (∀ k, is_Some (declared_widgets !! k)
        → k ∈ (@compute_parameters _ _ _ Offset).*1)
  ∧ first_call (project [5; 6]%Z) 5%Z declared_widgets
      ∈ calls (compute_stages (Methods := Offset) 3 (project [5; 6]%Z)
                 declared_widgets)
  ∧ declared_widgets = declared_widgets.
Proof.
  assert (Hd : ∀ k, is_Some (declared_widgets !! k)
        → k ∈ (@compute_parameters _ _ _ Offset).*1).
  { intros k. unfold declared_widgets.
    rewrite !lookup_insert_is_Some, lookup_empty. simpl.
    intros [<-|[_ [<-|[_ Hn]]]]; [| |by destruct Hn];
      rewrite !elem_of_cons; auto. }
  assert (H : first_call (project [5; 6]%Z) 5%Z declared_widgets
    ∈ calls (compute_stages (Methods := Offset) 3 (project [5; 6]%Z)
               declared_widgets)).
  { apply list_elem_of_lookup. exists 0%nat. vm_compute. reflexivity. }
  split; [exact Hd|]. split; [exact H|].
  exact (compute_stages_declared_kwargs (Methods := Offset) 3
           (project [5; 6]%Z) declared_widgets _ Hd H).
Defined.

Lemma compute_stages_filtered_again_witness :
  first_call (project [5; 6]%Z) 5%Z declared_widgets
    ∈ calls (compute_stages (Methods := Offset) 3 (project [5; 6]%Z) widgets)
  ∧ compute_stages (Methods := Offset) 3 (project [5; 6]%Z) declared_widgets
    = compute_stages (Methods := Offset) 3 (project [5; 6]%Z) widgets.
Proof.
  assert (H : first_call (project [5; 6]%Z) 5%Z declared_widgets
    ∈ calls (compute_stages (Methods := Offset) 3 (project [5; 6]%Z) widgets)).
  { apply list_elem_of_lookup. exists 0%nat. vm_compute. reflexivity. }
  split; [exact H|].
  exact (compute_stages_filtered_again (Methods := Offset) 3
           (project [5; 6]%Z) widgets _ H).
Defined.

Lemma compute_stages_is_map_witness :
  (∀ s, s ∈ stage_list (project [5; 6; 8]%Z) →
     @compute _ _ _ Offset (set_stage (project [5; 6; 8]%Z) s)
       (spec_filtered_kwargs (@compute_parameters _ _ _ Offset) widgets)
     = (set_stage (project [5; 6; 8]%Z) s, Returned (1 + s)%Z))
  ∧ (length (stage_list (project [5; 6; 8]%Z)) < 4)%nat
  ∧ result (compute_stages (Methods := Offset) 4 (project [5; 6; 8]%Z) widgets)
    = Some (Returned ((λ s, (1 + s)%Z) <$> stage_list (project [5; 6; 8]%Z))).
Proof.
  assert (H : ∀ s, s ∈ stage_list (project [5; 6; 8]%Z) →
     @compute _ _ _ Offset (set_stage (project [5; 6; 8]%Z) s)
       (spec_filtered_kwargs (@compute_parameters _ _ _ Offset) widgets)
     = (set_stage (project [5; 6; 8]%Z) s, Returned (1 + s)%Z)).
  { intros s Hs. apply list_elem_of_In in Hs. vm_compute in Hs.
    destruct Hs as [<-|[<-|[<-|[]]]]; vm_compute; reflexivity. }
  assert (Hf : (length (stage_list (project [5; 6; 8]%Z)) < 4)%nat).
  { vm_compute. lia. }
  split; [exact H|]. split; [exact Hf|].
  exact (proj1 (compute_stages_is_map (Methods := Offset) (λ s, (1 + s)%Z) 4
                  (project [5; 6; 8]%Z) widgets H Hf)).
Defined.

End DemoFacts.
